(** * httpmon: the measurement engine of [httpmon.cc]

    A shallow embedding of the quantile estimator ([median], [quartiles]),
    of the body scanner ([nullWriter]), of the shared control structure
    ([HttpClientControl]) with the two critical sections that touch it,
    and of the start-up and report steps of [main].

    Conventions.
    - C++ [int] and [uint32_t] values are integers of [Z]; every conversion
      into one of these types is written out ([to_int], [to_uint32]) and
      signed arithmetic that leaves the range of [int] is undefined
      behaviour ([int_arith]).  [size_t] values that hold the size of an
      object are kept exact: no object is larger than [SIZE_MAX].
    - [double] is the kernel's binary64 type [float].
    - A computation that may throw or run into undefined behaviour returns
      an [outcome]. *)

From Stdlib Require Import String NArith ZArith Nnat List Bool Lia Permutation Sorted.
From Stdlib Require Import Floats.
From Stdlib Require Import QArith Lqa.
From Stdlib Require Import Strings.Byte.
From Stdlib Require Import List.
Import ListNotations.

Local Open Scope Z_scope.

(** ** Outcomes of a C++ computation *)

(** What the abstract machine leaves undefined and this program can reach. *)
Inductive fault : Type :=
| OutOfBounds (index : Z)      (* dereference outside the vector's elements *)
| SignedOverflow               (* an [int] expression outside the range of [int] *)
| DivisionByZero               (* integer division by zero *)
| FloatToInt                   (* a [double] whose truncation no [int] holds *)
| NegativeArrayBound.          (* an array declared with a negative bound *)

Inductive exception : Type :=
| logic_error (what : string).

Inductive outcome (A : Type) : Type :=
| Ok (a : A)
| Throw (e : exception)
| Undefined (f : fault).

Arguments Ok {A} a.
Arguments Throw {A} e.
Arguments Undefined {A} f.

Definition bind {A B : Type} (c : outcome A) (k : A -> outcome B) : outcome B :=
  match c with
  | Ok a => k a
  | Throw e => Throw e
  | Undefined f => Undefined f
  end.

Notation "x <- c ;; k" := (bind c (fun x => k))
  (at level 61, c at next level, right associativity).

Definition returns {A : Type} (c : outcome A) : Prop := exists a, c = Ok a.

(** ** Machine integers *)

Module Cxx.

Definition INT_MIN : Z := - 2 ^ 31.
Definition INT_MAX : Z := 2 ^ 31 - 1.
Definition UINT32_MOD : Z := 2 ^ 32.
Definition SIZE_MOD : Z := 2 ^ 64.

(** Conversion to [uint32_t]: reduction modulo 2^32. *)
Definition to_uint32 (z : Z) : Z := z mod UINT32_MOD.

(** Conversion to [size_t] (64 bits): reduction modulo 2^64. *)
Definition to_size_t (z : Z) : Z := z mod SIZE_MOD.

(** Conversion to [int]: the value congruent modulo 2^32 that [int] holds. *)
Definition to_int (z : Z) : Z := (z + 2 ^ 31) mod 2 ^ 32 - 2 ^ 31.

Definition in_int (z : Z) : bool := (INT_MIN <=? z) && (z <=? INT_MAX).

(** The value of an [int] expression: undefined outside the range. *)
Definition int_arith (z : Z) : outcome Z :=
  if in_int z then Ok z else Undefined SignedOverflow.

End Cxx.
Import Cxx.

(** ** The element type of the templates

    [median] and [quartiles] are templates over a container [T]; they use
    three operations of [T::value_type]: [operator<] (through [std::sort]),
    [operator+] and division by the [int] literal [2]. *)

Class Value (V : Type) : Type := {
  lt : V -> V -> bool;
  add : V -> V -> V;
  half : V -> V
}.

(** [double], the instance [main] uses. *)
#[export] Instance Value_double : Value float := {
  lt := PrimFloat.ltb;
  add := PrimFloat.add;
  half := fun x => PrimFloat.div x 2%float
}.

(** Exact rationals, an element type on which [operator<] is a total order
    and [(x + y) / 2] lies between [x] and [y]. *)
#[export] Instance Value_Q : Value Q := {
  lt := fun x y => negb (Qle_bool y x);
  add := Qplus;
  half := fun x => Qdiv x (2 # 1)
}.

(** ** The quantile estimator *)

Section Quantiles.

Context {V : Type} `{Value V}.

(** A random-access iterator into the vector [a] is its offset from
    [a.begin()]; [deref a i] is [*(a.begin() + i)], which is defined only
    on the elements of [a]. *)
Definition deref (a : list V) (i : Z) : outcome V :=
  if i <? 0 then Undefined (OutOfBounds i)
  else match nth_error a (Z.to_nat i) with
       | Some x => Ok x
       | None => Undefined (OutOfBounds i)
       end.

(** [median(begin, end)]: [int n = end - begin], then the branch on
    [(n-1) % 2]; [/] and [%] on [int] truncate towards zero. *)
Definition median (a : list V) (begin end_ : Z) : outcome V :=
  let n := to_int (end_ - begin) in
  n1 <- int_arith (n - 1) ;;
  if Z.rem n1 2 =? 0 then
    deref a (begin + Z.quot n1 2)
  else
    x <- deref a (begin + Z.quot n1 2) ;;
    y <- deref a (begin + Z.quot n1 2 + 1) ;;
    Ok (half (add x y)).

(** [std::sort(a.begin(), a.end())] with [operator<]: the implementation
    is the library's; any of them returns the elements in ascending order.
    Insertion after the last element that is not greater. *)
Fixpoint insert (x : V) (l : list V) : list V :=
  match l with
  | [] => [x]
  | y :: l' => if lt x y then x :: y :: l' else y :: insert x l'
  end.

Fixpoint sort (l : list V) : list V :=
  match l with
  | [] => []
  | x :: l' => insert x (sort l')
  end.

(** [std::array<value_type, 5>], in the order of the source's comment:
    minimum, first quartile, median, third quartile, maximum. *)
Record array5 : Type := Array5 {
  ret0 : V;
  ret1 : V;
  ret2 : V;
  ret3 : V;
  ret4 : V
}.

(** [quartiles(a)].  The vector is sorted in place; its callers read only
    the returned array afterwards.  The five elements are computed in the
    order of the source: [ret[0]], [ret[4]], [ret[2]], [ret[1]],
    [ret[3]]. *)
Definition quartiles (a : list V) : outcome array5 :=
  let n := Z.of_nat (length a) in
  if n <? 1 then Throw (logic_error "No data to compute quartiles on")
  else
    let a := sort a in
    r0 <- deref a 0 ;;
    r4 <- deref a (n - 1) ;;
    r2 <- median a 0 n ;;
    r1 <- median a 0 (n / 2) ;;
    r3 <- median a (n / 2) n ;;
    Ok (Array5 r0 r1 r2 r3 r4).

End Quantiles.

Arguments array5 V : clear implicits.

(** ** The response-body callback *)

Definition SpecialRecommendationMarker : Z := 128.

(** The conversion of an [int] to [unsigned char] that [memchr] applies to
    its second argument. *)
Definition to_uchar (c : Z) : byte :=
  match Byte.of_N (Z.to_N (c mod 256)) with
  | Some b => b
  | None => x00
  end.

(** [memchr(s, c, n)]: the offset of the first of the first [n] bytes of [s]
    that equals [(unsigned char)c]; [None] is the null pointer.  The buffer
    the transport passes holds [n] bytes. *)
Fixpoint memchr_from (off : N) (s : list byte) (c : byte) (n : nat) : option N :=
  match n, s with
  | S n', b :: s' =>
      if Byte.eqb b c then Some off else memchr_from (N.succ off) s' c n'
  | _, _ => None
  end.

Definition memchr (s : list byte) (c : Z) (n : N) : option N :=
  memchr_from 0%N s (to_uchar c) (N.to_nat n).

(** [nullWriter(ptr, size, nmemb, userdata)]: [userdata] points to the
    worker's [recommendation] flag, passed in and out here; the second
    component is the returned byte count. *)
Definition nullWriter (ptr : list byte) (size nmemb : N) (recommendation : bool)
  : bool * N :=
  let recommendation :=
    match memchr ptr SpecialRecommendationMarker (size * nmemb) with
    | Some _ => true
    | None => recommendation
    end in
  (recommendation, (size * nmemb)%N).

(** The transport's side of one request: it hands the body to the write
    callback chunk by chunk ([size] is 1 and [nmemb] the chunk's length),
    aborts with [CURLE_WRITE_ERROR] when the callback returns another count
    than it was given, and otherwise ends with the transfer's own result
    code ([code], 0 on success). *)
Definition CURLE_WRITE_ERROR : Z := 23.

Fixpoint curl_easy_perform (chunks : list (list byte)) (code : Z)
  (recommendation : bool) : Z * bool :=
  match chunks with
  | [] => (code, recommendation)
  | chunk :: rest =>
      let nmemb := N.of_nat (length chunk) in
      let '(recommendation, written) := nullWriter chunk 1 nmemb recommendation in
      if (written =? nmemb)%N
      then curl_easy_perform rest code recommendation
      else (CURLE_WRITE_ERROR, recommendation)
  end.

(** ** The shared control structure *)

(** [HttpClientControl] without its mutex: each block that holds the lock
    is one function on the structure. *)
Record HttpClientControl : Type := {
  url : string;
  timeout : Z;
  running : bool;
  numErrors : Z;            (* uint32_t *)
  numRecommendations : Z;   (* uint32_t *)
  latencies : list float
}.

(** The locked block of [httpClientMain] (lines 94-101). *)
Definition record (error recommendation : bool) (latency : float)
  (control : HttpClientControl) : HttpClientControl :=
  {| url := url control;
     timeout := timeout control;
     running := running control;
     numErrors :=
       if error then to_uint32 (numErrors control + 1) else numErrors control;
     numRecommendations :=
       if recommendation then to_uint32 (numRecommendations control + 1)
       else numRecommendations control;
     latencies := latencies control ++ [latency] |}.

(** What one request of a worker meets: the transport's behaviour and the
    two readings of the clock. *)
Record request : Type := {
  rq_body : list (list byte);   (* the chunks of the response body *)
  rq_code : Z;                  (* the transfer's result code *)
  rq_start : float;
  rq_finish : float
}.

(** One iteration of the loop of [httpClientMain] (lines 87-101).  The flag
    is the worker's local [recommendation], whose value the previous
    iteration left. *)
Definition httpClientMain_iteration (rq : request) (recommendation : bool)
  (control : HttpClientControl) : bool * HttpClientControl :=
  let recommendation := false in
  let '(res, recommendation) :=
    curl_easy_perform (rq_body rq) (rq_code rq) recommendation in
  let error := negb (res =? 0) in
  let latency := (rq_finish rq - rq_start rq)%float in
  (recommendation, record error recommendation latency control).

(** The locals [main] fills while it holds the lock. *)
Record snapshot : Type := {
  snap_numErrors : Z;            (* int *)
  snap_numRecommendations : Z;   (* int *)
  snap_latencies : list float;
  snap_reportTime : float
}.

(** The locked block of [main] (lines 184-195); [now] is the clock reading
    taken inside it. *)
Definition drainAndReset (now : float) (control : HttpClientControl)
  : snapshot * HttpClientControl :=
  ({| snap_numErrors := to_int (numErrors control);
      snap_numRecommendations := to_int (numRecommendations control);
      snap_latencies := latencies control;
      snap_reportTime := now |},
   {| url := url control;
      timeout := timeout control;
      running := running control;
      numErrors := 0;
      numRecommendations := 0;
      latencies := [] |}).

(** The aggregator as [main] sets it up (lines 146-151). *)
Definition initial_control (u : string) (t : Z) : HttpClientControl :=
  {| url := u; timeout := t; running := true;
     numErrors := 0; numRecommendations := 0; latencies := [] |}.

(** ** The reporter *)

(** Conversion of a [double] to [int]: truncation towards zero, undefined
    when the truncated value is not an [int] (NaN and infinities included). *)
Definition double_to_int (x : float) : outcome Z :=
  match Prim2SF x with
  | S754_zero _ => Ok 0
  | S754_finite s m e =>
      let mag := if 0 <=? e then Z.pos m * 2 ^ e else Z.pos m / 2 ^ (- e) in
      let z := if s then - mag else mag in
      if in_int z then Ok z else Undefined FloatToInt
  | _ => Undefined FloatToInt
  end.

(** Conversion of a [size_t] to [double]. *)
Definition size_to_double (n : Z) : float :=
  PrimFloat.of_uint63 (Uint63.of_Z n).

(** The values one report line prints. *)
Record report : Type := {
  rep_time : float;
  rep_latency : array5 Z;   (* milliseconds *)
  rep_throughput : Z;
  rep_recommendationRate : Z;
  rep_numErrors : Z
}.

(** The body of the report loop after [sigtimedwait] returned [signo]
    (lines 177-209). *)
Definition report_tick (signo : Z) (lastReportTime now : float)
  (control : HttpClientControl) : outcome (report * HttpClientControl) :=
  let control :=
    if 0 <? signo
    then {| url := url control; timeout := timeout control; running := false;
            numErrors := numErrors control;
            numRecommendations := numRecommendations control;
            latencies := latencies control |}
    else control in
  let '(snap, control) := drainAndReset now control in
  let size := Z.of_nat (length (snap_latencies snap)) in
  let reportTime := snap_reportTime snap in
  throughput <-
    double_to_int (size_to_double size / (reportTime - lastReportTime))%float ;;
  scaled <- int_arith (snap_numRecommendations snap * 100) ;;
  recommendationRate <-
    (if size =? 0 then Undefined DivisionByZero
     else Ok (to_int (to_size_t scaled / size))) ;;
  latencyQuartiles <- quartiles (snap_latencies snap) ;;
  ms0 <- double_to_int (ret0 latencyQuartiles * 1000)%float ;;
  ms1 <- double_to_int (ret1 latencyQuartiles * 1000)%float ;;
  ms2 <- double_to_int (ret2 latencyQuartiles * 1000)%float ;;
  ms3 <- double_to_int (ret3 latencyQuartiles * 1000)%float ;;
  ms4 <- double_to_int (ret4 latencyQuartiles * 1000)%float ;;
  Ok ({| rep_time := reportTime;
         rep_latency := Array5 ms0 ms1 ms2 ms3 ms4;
         rep_throughput := throughput;
         rep_recommendationRate := recommendationRate;
         rep_numErrors := snap_numErrors snap |},
      control).

(** ** Start-up *)

(** The variables map after [po::notify], defaults applied. *)
Record variables_map : Type := {
  vm_help : bool;              (* vm.count("help") != 0 *)
  vm_url : option string;      (* --url, when given *)
  vm_concurrency : Z;          (* --concurrency, 100 by default *)
  vm_timeout : Z               (* --timeout, 9 by default *)
}.

Inductive stdout_item : Type :=
| Description              (* [desc], the option descriptions *)
| Text (s : string).

(** How the first part of [main] ends (lines 130-157): it returns, or it
    has spawned one thread per identifier with the control structure. *)
Inductive startup : Type :=
| Exited (status : Z) (out : list stdout_item)
| Started (control : HttpClientControl) (threads : list Z).

Definition newline : string := String (Ascii.ascii_of_nat 10) EmptyString.

(** [parsed] is what [po::parse_command_line], [po::store] and [po::notify]
    made of the command line; an exception of theirs is not caught. *)
Definition main_startup (parsed : outcome variables_map) : outcome startup :=
  vm <- parsed ;;
  if vm_help vm then Ok (Exited 1 [Description; Text newline])
  else
    let u := match vm_url vm with Some s => s | None => EmptyString end in
    let control := initial_control u (vm_timeout vm) in
    let concurrency := vm_concurrency vm in
    if concurrency <? 0 then Undefined NegativeArrayBound
    else Ok (Started control (map Z.of_nat (seq 0 (Z.to_nat concurrency)))).

(** ** Element types with an order

    The order [operator<] induces: [x] is not greater than [y] when
    [y < x] is false.  [ValueOrder] collects what the estimator's bracket
    rests on: [<] is asymmetric, its negation is transitive, and the mean of
    two ordered values lies between them. *)
Definition not_greater {V : Type} `{Value V} (x y : V) : Prop := lt y x = false.

Class ValueOrder (V : Type) `{Value V} : Prop := {
  lt_asym : forall x y : V, lt x y = true -> lt y x = false;
  not_greater_trans :
    forall x y z : V, not_greater x y -> not_greater y z -> not_greater x z;
  mean_between :
    forall x y : V,
      not_greater x y ->
      not_greater x (half (add x y)) /\ not_greater (half (add x y)) y
}.

(** ** Notions the statements use *)

(** The orders in which the elements of a list may arrive. *)
Fixpoint inserts {A : Type} (x : A) (l : list A) : list (list A) :=
  match l with
  | [] => [[x]]
  | y :: l' => (x :: l) :: map (cons y) (inserts x l')
  end.

Fixpoint arrival_orders {A : Type} (l : list A) : list (list A) :=
  match l with
  | [] => [[]]
  | x :: l' => flat_map (inserts x) (arrival_orders l')
  end.

(** The elements of the half-open range [[first, last)] of a vector. *)
Definition range {A : Type} (a : list A) (first last : Z) : list A :=
  firstn (Z.to_nat (last - first)) (skipn (Z.to_nat first) a).

(** The textbook median of a range of even length [n], in the words of the
    specification: the mean of the elements at indices [n/2 - 1] and
    [n/2]. *)
Definition textbook_even_median {V : Type} `{Value V} (r : list V) : option V :=
  let n := Z.of_nat (length r) in
  match nth_error r (Z.to_nat (n / 2 - 1)), nth_error r (Z.to_nat (n / 2)) with
  | Some x, Some y => Some (half (add x y))
  | _, _ => None
  end.

(** What one request hands to the locked block of its worker. *)
Record observation : Type := {
  obs_error : bool;
  obs_recommendation : bool;
  obs_latency : float
}.

(** The locked blocks of the workers, one after the other in the order in
    which they took the lock. *)
Definition record_all (obs : list observation) (control : HttpClientControl)
  : HttpClientControl :=
  fold_left
    (fun c o => record (obs_error o) (obs_recommendation o) (obs_latency o) c)
    obs control.

Definition count_errors (obs : list observation) : Z :=
  Z.of_nat (length (filter obs_error obs)).

Definition count_recommendations (obs : list observation) : Z :=
  Z.of_nat (length (filter obs_recommendation obs)).

(** ** The loops

    The worker's loop and the report loop of [main] run until the
    [running] flag is cleared; a finite schedule says what each passage
    meets.  Every block that holds the mutex is atomic with respect to the
    others, so a run of the threads is a sequence of such blocks. *)

(** How a loop stands when its schedule is used up. *)
Inductive worker_end : Type :=
| WorkerReturned (status : Z)             (* the loop was left, [return 0] *)
| WorkerRunning (recommendation : bool).  (* [running] is still set *)

(** [httpClientMain] on its own (lines 85-105): one request of the schedule
    per passage, the flag is read before each. *)
Fixpoint httpClientMain (rqs : list request) (recommendation : bool)
  (control : HttpClientControl) : worker_end * HttpClientControl :=
  match rqs with
  | [] =>
      if running control then (WorkerRunning recommendation, control)
      else (WorkerReturned 0, control)
  | rq :: rest =>
      if running control then
        let '(recommendation, control) :=
          httpClientMain_iteration rq recommendation control in
        httpClientMain rest recommendation control
      else (WorkerReturned 0, control)
  end.

(** The marker test on a whole body. *)
Definition has_marker (bytes : list byte) : bool :=
  existsb (fun b => Byte.eqb b (to_uchar SpecialRecommendationMarker)) bytes.

(** What a request contributes to the aggregator. *)
Definition observation_of (rq : request) : observation :=
  {| obs_error := negb (rq_code rq =? 0);
     obs_recommendation := has_marker (concat (rq_body rq));
     obs_latency := (rq_finish rq - rq_start rq)%float |}.

(** The two locked blocks as events of a run. *)
Inductive event : Type :=
| Recorded (o : observation)   (* a worker's block, lines 94-101 *)
| Drained (now : float).       (* the block of [main], lines 184-195 *)

(** A run of locked blocks: the snapshots [main] took, oldest first, and the
    structure at the end. *)
Fixpoint run (events : list event) (control : HttpClientControl)
  : list snapshot * HttpClientControl :=
  match events with
  | [] => ([], control)
  | Recorded o :: rest =>
      run rest
        (record (obs_error o) (obs_recommendation o) (obs_latency o) control)
  | Drained now :: rest =>
      let '(snap, control) := drainAndReset now control in
      let '(snaps, control) := run rest control in
      (snap :: snaps, control)
  end.

Definition recorded_latencies (events : list event) : list float :=
  flat_map (fun e => match e with
                     | Recorded o => [obs_latency o]
                     | Drained _ => []
                     end) events.

Definition recorded_errors (events : list event) : Z :=
  Z.of_nat (length (filter (fun e => match e with
                                     | Recorded o => obs_error o
                                     | Drained _ => false
                                     end) events)).

Definition recorded_recommendations (events : list event) : Z :=
  Z.of_nat (length (filter (fun e => match e with
                                     | Recorded o => obs_recommendation o
                                     | Drained _ => false
                                     end) events)).

Definition total (counts : list Z) : Z := fold_right Z.add 0 counts.

(** The counters are [uint32_t] values and count no more outcomes than the
    vector holds. *)
Definition counters_within (control : HttpClientControl) : Prop :=
  0 <= numErrors control < UINT32_MOD
  /\ 0 <= numRecommendations control < UINT32_MOD
  /\ numErrors control <= Z.of_nat (length (latencies control))
  /\ numRecommendations control <= Z.of_nat (length (latencies control)).

(** One passage of the report loop: what the workers recorded since the
    last drain, what [sigtimedwait] returned (the signal number, or -1 when
    the second elapsed), and the clock inside the locked block. *)
Record tick : Type := {
  tk_recorded : list observation;
  tk_signo : Z;
  tk_now : float
}.

Inductive loop_end : Type :=
| LoopLeft (signo : Z)   (* [running] was found cleared: "Got signal signo" *)
| LoopRunning.           (* [running] is still set *)

(** The report loop of [main] (lines 173-210): the lines it printed, oldest
    first, how it ended and the structure then.  [signo] is the local of
    that name. *)
Fixpoint report_loop (ticks : list tick) (signo : Z) (lastReportTime : float)
  (control : HttpClientControl)
  : outcome (list report * loop_end * HttpClientControl) :=
  match ticks with
  | [] =>
      Ok ([], if running control then LoopRunning else LoopLeft signo, control)
  | tk :: rest =>
      if running control then
        let signo := tk_signo tk in
        let control := record_all (tk_recorded tk) control in
        step <- report_tick signo lastReportTime (tk_now tk) control ;;
        let '(line, control) := step in
        more <- report_loop rest signo (rep_time line) control ;;
        let '(lines, ending, control) := more in
        Ok (line :: lines, ending, control)
      else Ok ([], LoopLeft signo, control)
  end.

(** What a step printed, without the structure it left. *)
Definition printed {A B : Type} (c : outcome (A * B)) : outcome A :=
  p <- c ;; Ok (fst p).

(** ** Exact integers as an element type *)

(** The templates at unbounded integers: [/] truncates towards zero. *)
#[export] Instance Value_Z : Value Z := {
  lt := Z.ltb;
  add := Z.add;
  half := fun x => Z.quot x 2
}.

(** * Properties *)

Example quartiles_double_12345 :
  quartiles [1; 2; 3; 4; 5]%float = Ok (Array5 1 1.5 3 4 5)%float.
Proof. vm_compute. reflexivity. Qed.

Example quartiles_Q_1234 :
  quartiles [1; 2; 3; 4]%Q = Ok (Array5 1 (3 # 2) (5 # 2) (7 # 2) 4)%Q.
Proof. vm_compute. reflexivity. Qed.

Example report_tick_first_second :
  report_tick 0 100 101 (initial_control "http://localhost/" 9)
  = Undefined DivisionByZero.
Proof. vm_compute. reflexivity. Qed.

Example report_tick_two_samples :
  exists c, report_tick 0 100 101
    (record true true 0.25 (record false false 0.5 (initial_control "u" 9)))
  = Ok ({| rep_time := 101; rep_latency := Array5 250 250 375 500 500;
           rep_throughput := 2; rep_recommendationRate := 50;
           rep_numErrors := 1 |}, c).
Proof. eexists. vm_compute. reflexivity. Qed.

(** C8. On an empty sample [quartiles] throws
    [std::logic_error("No data to compute quartiles on")]: it returns no
    value, whatever the element type. *)
Theorem quartiles_empty_throws :
  forall (V : Type) (ops : Value V),
    quartiles (@nil V) = Throw (logic_error "No data to compute quartiles on")
    /\ ~ returns (quartiles (@nil V)).
Proof.
  intros V ops. split.
  - reflexivity.
  - intros [r Hr]. discriminate Hr.
Qed.

(** ** Machine integers inside their range *)

(** Linear arithmetic with quotients and remainders by constants. *)
Ltac lia_div := Z.div_mod_to_equations; lia.

Lemma to_int_id (z : Z) : INT_MIN <= z <= INT_MAX -> to_int z = z.
Proof.
  unfold to_int, INT_MIN, INT_MAX. intros Hz.
  rewrite Z.mod_small by lia. lia.
Qed.

Lemma to_uint32_id (z : Z) : 0 <= z < UINT32_MOD -> to_uint32 z = z.
Proof. intros Hz. unfold to_uint32. now apply Z.mod_small. Qed.

Lemma int_arith_ok (z : Z) : INT_MIN <= z <= INT_MAX -> int_arith z = Ok z.
Proof.
  intros Hz. unfold int_arith, in_int.
  destruct (Z.leb_spec INT_MIN z); destruct (Z.leb_spec z INT_MAX);
    simpl; try lia; reflexivity.
Qed.

(** ** The body scanner *)

Lemma marker_byte : to_uchar SpecialRecommendationMarker = x80.
Proof. reflexivity. Qed.

Lemma byte_is_marker (b : byte) : Byte.to_N b = 128%N <-> b = x80.
Proof.
  split.
  - intros Hb. apply (f_equal Byte.of_N) in Hb.
    rewrite Byte.of_to_N in Hb. now inversion Hb.
  - now intros ->.
Qed.

Lemma memchr_from_found (s : list byte) (c : byte) :
  forall off n, (length s <= n)%nat ->
    (exists k, memchr_from off s c n = Some k) <-> In c s.
Proof.
  induction s as [|b s IH]; intros off n Hn.
  - split; [intros [k Hk] | intros []]. destruct n; discriminate.
  - destruct n as [|n]; [simpl in Hn; lia|]. simpl in Hn. simpl memchr_from.
    destruct (Byte.eqb b c) eqn:Hbc.
    + apply Byte.byte_dec_bl in Hbc. split; [left; assumption | eauto].
    + rewrite (IH (N.succ off) n) by lia. split; [right; assumption|].
      intros [Heq|Hin]; [|assumption].
      subst b. rewrite (Byte.byte_dec_lb eq_refl) in Hbc. discriminate.
Qed.

(** The callback sets the flag exactly when the chunk holds the marker and
    leaves it as it was otherwise; it always returns the count it got. *)
Lemma nullWriter_chunk (chunk : list byte) (flag : bool) :
  nullWriter chunk 1 (N.of_nat (length chunk)) flag
  = (if in_dec Byte.byte_eq_dec x80 chunk then true else flag,
     N.of_nat (length chunk)).
Proof.
  unfold nullWriter, memchr. rewrite marker_byte, N.mul_1_l, Nat2N.id.
  pose proof (memchr_from_found chunk x80 0%N (length chunk) (le_n _)) as Hm.
  f_equal.
  destruct (in_dec Byte.byte_eq_dec x80 chunk) as [Hin|Hnot].
  - apply Hm in Hin. destruct Hin as [k ->]. reflexivity.
  - destruct (memchr_from 0 chunk x80 (length chunk)) eqn:E; [|reflexivity].
    exfalso. apply Hnot, Hm. eauto.
Qed.

Lemma curl_easy_perform_scan (chunks : list (list byte)) (code : Z) :
  forall flag,
    curl_easy_perform chunks code flag
    = (code, if flag then true
             else if in_dec Byte.byte_eq_dec x80 (concat chunks)
                  then true else false).
Proof.
  induction chunks as [|chunk rest IH]; intros flag.
  - simpl. destruct flag; reflexivity.
  - cbn [curl_easy_perform]. rewrite nullWriter_chunk, N.eqb_refl, IH.
    f_equal. cbn [concat].
    destruct (in_dec Byte.byte_eq_dec x80 chunk) as [Hin|Hnot].
    + destruct (in_dec Byte.byte_eq_dec x80 (chunk ++ concat rest)) as [|Hn];
        [now destruct flag|].
      exfalso. apply Hn, in_or_app. now left.
    + destruct flag; [reflexivity|].
      destruct (in_dec Byte.byte_eq_dec x80 (concat rest)) as [Hr|Hr];
        destruct (in_dec Byte.byte_eq_dec x80 (chunk ++ concat rest)) as [Hc|Hc];
        try reflexivity; exfalso.
      * apply Hc, in_or_app. now right.
      * apply in_app_or in Hc. tauto.
Qed.

(** C5. However the body is cut into chunks, the flag a request leaves is
    true exactly when some byte of the whole body is 128.  Each request
    starts from false whatever the previous one left, a chunk that holds
    the marker sets the flag, a set flag stays set, and the callback never
    makes the transport stop before the last chunk. *)
Theorem signal_iff_marker_in_body :
  forall (chunks : list (list byte)) (code : Z),
    (snd (curl_easy_perform chunks code false) = true
     <-> exists b, In b (concat chunks) /\ Byte.to_N b = 128%N)
    /\ fst (curl_easy_perform chunks code false) = code
    /\ (forall rq previous control,
          fst (httpClientMain_iteration rq previous control)
          = snd (curl_easy_perform (rq_body rq) (rq_code rq) false))
    /\ (forall chunk flag,
          In x80 chunk ->
          fst (nullWriter chunk 1 (N.of_nat (length chunk)) flag) = true)
    /\ (forall chunk size nmemb, fst (nullWriter chunk size nmemb true) = true)
    /\ snd (curl_easy_perform chunks code true) = true.
Proof.
  intros chunks code. repeat split.
  - rewrite curl_easy_perform_scan. simpl snd.
    destruct (in_dec Byte.byte_eq_dec x80 (concat chunks)) as [Hin|Hnot];
      [|discriminate].
    intros _. exists x80. split; [assumption | reflexivity].
  - intros (b & Hin & Hb). apply byte_is_marker in Hb. subst b.
    rewrite curl_easy_perform_scan. simpl snd.
    destruct (in_dec Byte.byte_eq_dec x80 (concat chunks)); tauto.
  - now rewrite curl_easy_perform_scan.
  - intros rq previous control. unfold httpClientMain_iteration.
    destruct (curl_easy_perform (rq_body rq) (rq_code rq) false).
    reflexivity.
  - intros chunk flag Hin. rewrite nullWriter_chunk. cbn [fst].
    destruct (in_dec Byte.byte_eq_dec x80 chunk); tauto.
  - intros chunk size nmemb. unfold nullWriter.
    destruct (memchr chunk SpecialRecommendationMarker (size * nmemb));
      reflexivity.
  - now rewrite curl_easy_perform_scan.
Qed.

(** ** The aggregator *)

(** C7. The one locked block of [main] resets the two counters and the
    latency vector together (and nothing else); a second drain with no
    record in between finds zero, zero and no sample, and leaves the
    structure as the first left it.  On the structure as [main] creates it
    the first drain finds the same. *)
Theorem drain_twice_is_empty :
  forall (t1 t2 : float) (control : HttpClientControl),
    let first := drainAndReset t1 control in
    let second := drainAndReset t2 (snd first) in
    snd first
    = {| url := url control; timeout := timeout control;
         running := running control;
         numErrors := 0; numRecommendations := 0; latencies := [] |}
    /\ fst second
       = {| snap_numErrors := 0; snap_numRecommendations := 0;
            snap_latencies := []; snap_reportTime := t2 |}
    /\ snd second = snd first
    /\ forall u t,
         fst (drainAndReset t1 (initial_control u t))
         = {| snap_numErrors := 0; snap_numRecommendations := 0;
              snap_latencies := []; snap_reportTime := t1 |}.
Proof.
  intros t1 t2 control. cbv zeta. repeat split.
Qed.

(** ** The estimator on a single sample *)

(** C10. With one element in the sample, the first-quartile call
    [median(a.begin(), a.begin() + n / 2)] is on the empty range [0, 0):
    [n - 1] is -1, [(n-1) % 2] is -1, and the second branch reads the
    elements at offsets 0 and 1; offset 1 is outside the vector. *)
Theorem single_sample_first_quartile_reads_past_end :
  forall (V : Type) (ops : Value V) (x : V),
    sort [x] = [x]
    /\ Z.of_nat (length [x]) / 2 = 0
    /\ deref [x] 0 = Ok x
    /\ deref [x] 1 = Undefined (OutOfBounds 1)
    /\ median [x] 0 0 = Undefined (OutOfBounds 1).
Proof. intros V ops x. repeat split. Qed.

(** C6. On a sample of one element [quartiles] returns no array: the call
    ends in the read outside the vector. *)
Theorem quartiles_single_sample_undefined :
  forall (V : Type) (ops : Value V) (x : V),
    quartiles [x] = Undefined (OutOfBounds 1)
    /\ ~ returns (quartiles [x]).
Proof.
  intros V ops x. split.
  - reflexivity.
  - intros [r Hr]. discriminate Hr.
Qed.

Example quartiles_double_single :
  quartiles [0.25]%float = Undefined (OutOfBounds 1).
Proof. reflexivity. Qed.

(** ** The reporter on an empty window *)

(** C1. A tick on a drained aggregator prints no report.  The throughput
    is converted first; when that conversion is defined the next statement
    divides by [latencies.size()], which is 0.  Nothing guards the call of
    [quartiles] either, which throws on the drained vector. *)
Theorem report_tick_empty_window_faults :
  forall (signo : Z) (lastReportTime now t : float) (control : HttpClientControl),
    let drained := snd (drainAndReset t control) in
    ~ returns (report_tick signo lastReportTime now drained)
    /\ (returns (double_to_int
                   (size_to_double 0 / (now - lastReportTime))%float) ->
        report_tick signo lastReportTime now drained = Undefined DivisionByZero)
    /\ @quartiles float _ (snap_latencies (fst (drainAndReset now drained)))
       = Throw (logic_error "No data to compute quartiles on").
Proof.
  intros signo lastReportTime now t control. cbv zeta.
  assert (Hrun : report_tick signo lastReportTime now
                   (snd (drainAndReset t control))
                 = (_ <- double_to_int
                           (size_to_double 0 / (now - lastReportTime))%float ;;
                    Undefined DivisionByZero)).
  { unfold report_tick. destruct (0 <? signo); reflexivity. }
  rewrite Hrun. repeat split.
  - intros [r Hr].
    destruct (double_to_int (size_to_double 0 / (now - lastReportTime))%float);
      discriminate Hr.
  - intros [z Hz]. rewrite Hz. reflexivity.
Qed.

(** ** Start-up *)

(** C9, the code's behaviour.  [--help] ends [main] with status 1 after the
    option descriptions were printed, and no thread exists then.  Nothing
    else is checked: without [--help], and with a concurrency that is not
    negative, [main] spawns that many workers on a control structure whose
    URL is the one given, or empty when none was. *)
Theorem startup_checks_help_only :
  forall (u : option string) (t : Z),
    (forall c,
       main_startup (Ok {| vm_help := true; vm_url := u;
                           vm_concurrency := c; vm_timeout := t |})
       = Ok (Exited 1 [Description; Text newline]))
    /\ (forall k : nat,
          main_startup (Ok {| vm_help := false; vm_url := u;
                              vm_concurrency := Z.of_nat k; vm_timeout := t |})
          = Ok (Started
                  (initial_control
                     match u with Some s => s | None => EmptyString end t)
                  (map Z.of_nat (seq 0 k)))).
Proof.
  intros u t. split.
  - reflexivity.
  - intros k. unfold main_startup, bind. cbn [vm_help vm_concurrency vm_url vm_timeout].
    destruct (Z.ltb_spec (Z.of_nat k) 0) as [Hneg|_]; [lia|].
    now rewrite Nat2Z.id.
Qed.

(** C9, as stated, fails: with no URL, and with a concurrency of zero,
    [main] does not exit at start-up; it goes on to spawn its workers (one
    hundred of them, none).  A negative concurrency is not met by an exit
    with a usage message either. *)
Lemma startup_accepts_missing_url_and_zero_concurrency :
  main_startup (Ok {| vm_help := false; vm_url := None;
                      vm_concurrency := 100; vm_timeout := 9 |})
  = Ok (Started (initial_control EmptyString 9) (map Z.of_nat (seq 0 100)))
  /\ main_startup (Ok {| vm_help := false; vm_url := Some "http://localhost/"%string;
                         vm_concurrency := 0; vm_timeout := 9 |})
     = Ok (Started (initial_control "http://localhost/" 9) [])
  /\ main_startup (Ok {| vm_help := false; vm_url := Some "http://localhost/"%string;
                         vm_concurrency := -1; vm_timeout := 9 |})
     = Undefined NegativeArrayBound.
Proof. repeat split. Qed.

(** ** The sample 1, 2, 3, 4, 5 *)

Lemma inserts_anywhere {A : Type} (x : A) (l1 l2 : list A) :
  In (l1 ++ x :: l2) (inserts x (l1 ++ l2)).
Proof.
  induction l1 as [|y l1 IH]; simpl.
  - destruct l2; simpl; auto.
  - right. apply in_map. exact IH.
Qed.

Lemma arrival_orders_complete {A : Type} (l : list A) :
  forall l', Permutation l' l -> In l' (arrival_orders l).
Proof.
  induction l as [|x l IH]; intros l' Hp.
  - apply Permutation_sym, Permutation_nil in Hp. subst l'. now left.
  - assert (Hin : In x l').
    { apply (Permutation_in x (Permutation_sym Hp)). now left. }
    apply in_split in Hin. destruct Hin as (l1 & l2 & ->).
    apply Permutation_sym, Permutation_cons_app_inv, Permutation_sym in Hp.
    simpl. apply in_flat_map. exists (l1 ++ l2). split.
    + now apply IH.
    + apply inserts_anywhere.
Qed.

(** C2, the code's behaviour.  In whatever order 1, 2, 3, 4, 5 arrive,
    [quartiles] returns minimum 1, first quartile 1.5, median 3, third
    quartile 4 and maximum 5: the upper half is the range [2, 5), that is
    3, 4, 5, whose middle element is 4. *)
Theorem quartiles_of_one_to_five :
  forall l : list float,
    Permutation l [1; 2; 3; 4; 5]%float ->
    quartiles l = Ok (Array5 1 1.5 3 4 5)%float.
Proof.
  intros l Hp. apply arrival_orders_complete in Hp. revert l Hp.
  apply Forall_forall.
  let orders := eval vm_compute in (arrival_orders [1; 2; 3; 4; 5]%float) in
  change (Forall (fun l => quartiles l = Ok (Array5 1 1.5 3 4 5)%float) orders).
  repeat (constructor; [vm_compute; reflexivity|]). constructor.
Qed.

(** The five values arriving in descending order. *)
Lemma quartiles_of_one_to_five_reversed :
  quartiles [5; 4; 3; 2; 1]%float = Ok (Array5 1 1.5 3 4 5)%float.
Proof.
  apply quartiles_of_one_to_five.
  apply Permutation_sym, (Permutation_rev [1; 2; 3; 4; 5]%float).
Defined.

(** Binary64 values are told apart by their comparison with a constant. *)
Lemma double_4_is_not_4_5 : (4 <> 4.5)%float.
Proof.
  intros Heq. apply (f_equal (fun x => PrimFloat.ltb 4 x)) in Heq.
  vm_compute in Heq. discriminate Heq.
Qed.

(** C2, as stated, fails on the sorted sample itself: the third quartile
    is 4, not 4.5. *)
Lemma third_quartile_of_one_to_five_is_4 :
  quartiles [1; 2; 3; 4; 5]%float = Ok (Array5 1 1.5 3 4 5)%float
  /\ quartiles [1; 2; 3; 4; 5]%float <> Ok (Array5 1 1.5 3 4.5 5)%float.
Proof.
  split.
  - vm_compute. reflexivity.
  - intros Heq. vm_compute in Heq.
    apply double_4_is_not_4_5. now inversion Heq.
Qed.

Example quartiles_Q_12345 :
  quartiles [1; 2; 3; 4; 5]%Q = Ok (Array5 1 (3 # 2) 3 4 5)%Q.
Proof. vm_compute. reflexivity. Qed.

(** ** The median helper *)

Section MedianIndices.

Context {V : Type} `{Value V}.

Lemma range_length (a : list V) (first last : Z) :
  0 <= first -> first <= last -> last <= Z.of_nat (length a) ->
  Z.of_nat (length (range a first last)) = last - first.
Proof.
  intros Hf Hfl Hl. unfold range. rewrite length_firstn, length_skipn. lia.
Qed.

(** Offset [k] of the range is offset [first + k] of the vector, and the
    dereference there is defined. *)
Lemma deref_range (a : list V) (first last k : Z) :
  0 <= first -> last <= Z.of_nat (length a) -> 0 <= k < last - first ->
  exists x, nth_error (range a first last) (Z.to_nat k) = Some x
            /\ deref a (first + k) = Ok x.
Proof.
  intros Hf Hl Hk. unfold range, deref.
  destruct (Z.ltb_spec (first + k) 0) as [Hneg|_]; [lia|].
  rewrite nth_error_firstn.
  destruct (Nat.ltb_spec (Z.to_nat k) (Z.to_nat (last - first))) as [_|Hge];
    [|lia].
  rewrite nth_error_skipn, <- Z2Nat.inj_add by lia.
  destruct (nth_error a (Z.to_nat (first + k))) as [x|] eqn:Hx.
  - now exists x.
  - apply nth_error_None in Hx. lia.
Qed.

(** What [median] computes on a range whose length an [int] holds. *)
Lemma median_unfold (a : list V) (first last : Z) :
  1 <= last - first <= INT_MAX ->
  median a first last
  = if (last - first - 1) mod 2 =? 0
    then deref a (first + (last - first - 1) / 2)
    else x <- deref a (first + (last - first - 1) / 2) ;;
         y <- deref a (first + (last - first - 1) / 2 + 1) ;;
         Ok (half (add x y)).
Proof.
  intros Hn. unfold median. cbv zeta.
  assert (Hlo : INT_MIN <= 0) by (unfold INT_MIN; lia).
  rewrite to_int_id by lia. rewrite int_arith_ok by lia. cbn [bind].
  rewrite Z.rem_mod_nonneg, Z.quot_div_nonneg by lia. reflexivity.
Qed.

(** A range whose length is 2^31 modulo 2^32: the length wraps to
    [INT_MIN] and [n - 1] is outside [int]. *)
Lemma median_length_wraps (a : list V) (first last : Z) :
  to_int (last - first) = INT_MIN ->
  median a first last = Undefined SignedOverflow.
Proof. intros Hn. unfold median. cbv zeta. rewrite Hn. reflexivity. Qed.

End MedianIndices.

(** C3, the code's behaviour.  On a range of [n] elements, [n] from 1 to
    [INT_MAX], [median] returns the element at index [(n-1)/2] of the range
    when [n] is odd and the mean of the elements at indices [(n-1)/2] and
    [(n-1)/2 + 1] when [n] is even; for even [n] these are the indices
    [n/2 - 1] and [n/2], those of the textbook median.  The range need not
    be sorted for this. *)
Theorem median_indices :
  forall (V : Type) (ops : Value V) (a : list V) (first last : Z),
    0 <= first -> last <= Z.of_nat (length a) ->
    1 <= last - first <= INT_MAX ->
    let n := last - first in
    let r := range a first last in
    Z.of_nat (length r) = n
    /\ (Z.odd n = true ->
        exists x, nth_error r (Z.to_nat ((n - 1) / 2)) = Some x
                  /\ median a first last = Ok x)
    /\ (Z.even n = true ->
        exists x y,
          nth_error r (Z.to_nat ((n - 1) / 2)) = Some x
          /\ nth_error r (Z.to_nat ((n - 1) / 2 + 1)) = Some y
          /\ median a first last = Ok (half (add x y))
          /\ (n - 1) / 2 = n / 2 - 1
          /\ (n - 1) / 2 + 1 = n / 2).
Proof.
  intros V ops a first last Hf Hl Hn. cbv zeta.
  split; [apply range_length; lia|].
  rewrite median_unfold by assumption. split.
  - intros Hodd. apply Z.odd_spec in Hodd. destruct Hodd as [m Hodd].
    assert (Hm : (last - first - 1) mod 2 = 0) by lia_div.
    rewrite Hm. cbn [Z.eqb].
    apply deref_range; try assumption. lia_div.
  - intros Heven. apply Z.even_spec in Heven. destruct Heven as [m Heven].
    assert (Hm : (last - first - 1) mod 2 = 1) by lia_div.
    rewrite Hm. cbn [Z.eqb].
    assert (Hq : (last - first - 1) / 2 = (last - first) / 2 - 1) by lia_div.
    destruct (deref_range a first last ((last - first - 1) / 2) Hf Hl)
      as (x & Hx & Hdx); [lia_div|].
    destruct (deref_range a first last ((last - first - 1) / 2 + 1) Hf Hl)
      as (y & Hy & Hdy); [lia_div|].
    exists x, y. rewrite Hx, Hy, Hdx. cbn [bind].
    rewrite Z.add_assoc in Hdy. rewrite Hdy. cbn [bind]. repeat split; lia_div.
Qed.

(** The whole range of 1, 2, 3, 4: the mean of the elements at indices 1
    and 2. *)
Lemma median_indices_on_1234 :
  median [1; 2; 3; 4]%float 0 4 = Ok 2.5%float.
Proof.
  destruct (median_indices float _ [1; 2; 3; 4]%float 0 4) as (_ & _ & Heven).
  - lia.
  - simpl. lia.
  - unfold INT_MAX. lia.
  - destruct (Heven eq_refl) as (x & y & Hx & Hy & Hm & _).
    rewrite Hm. cbv in Hx, Hy.
    injection Hx as <-. injection Hy as <-. reflexivity.
Defined.

(** C3, as stated, fails where it sets this rule apart from the textbook
    median: on 1, 2, 3, 4 both give 2.5, and on every range of even length
    that an [int] holds they give the same value.  The rule itself fails on
    a range of 2^31 elements, whose length is not an [int]. *)
Lemma median_is_the_textbook_median :
  (median [1; 2; 3; 4]%float 0 4 = Ok 2.5%float
   /\ textbook_even_median [1; 2; 3; 4]%float = Some 2.5%float)
  /\ (forall (V : Type) (ops : Value V) (r : list V),
        Z.even (Z.of_nat (length r)) = true ->
        1 <= Z.of_nat (length r) <= INT_MAX ->
        exists m, median r 0 (Z.of_nat (length r)) = Ok m
                  /\ textbook_even_median r = Some m)
  /\ median (repeat 0%float (Z.to_nat 2147483648)) 0 2147483648
     = Undefined SignedOverflow.
Proof.
  split; [split; reflexivity|]. split.
  - intros V ops r Heven Hn.
    rewrite median_unfold by (rewrite Z.sub_0_r; assumption).
    rewrite Z.sub_0_r. apply Z.even_spec in Heven. destruct Heven as [h Heven].
    assert (Hm : (Z.of_nat (length r) - 1) mod 2 = 1) by lia_div.
    rewrite Hm. cbn [Z.eqb].
    assert (Hq : (Z.of_nat (length r) - 1) / 2 = Z.of_nat (length r) / 2 - 1)
      by lia_div.
    unfold textbook_even_median. cbv zeta. rewrite <- Hq.
    replace (Z.of_nat (length r) / 2) with ((Z.of_nat (length r) - 1) / 2 + 1)
      by lia_div.
    set (k := (Z.of_nat (length r) - 1) / 2) in *.
    unfold deref. cbn [Z.add].
    destruct (Z.ltb_spec k 0) as [Hneg|_]; [lia_div|].
    destruct (Z.ltb_spec (k + 1) 0) as [Hneg|_]; [lia_div|].
    destruct (nth_error r (Z.to_nat k)) as [x|] eqn:Hx;
      [|apply nth_error_None in Hx; lia_div].
    destruct (nth_error r (Z.to_nat (k + 1))) as [y|] eqn:Hy;
      [|apply nth_error_None in Hy; lia_div].
    exists (half (add x y)). split; reflexivity.
  - apply median_length_wraps. reflexivity.
Qed.

(** ** Recording and draining *)

Lemma count_errors_bounds (obs : list observation) (o : observation) :
  0 <= count_errors obs
  /\ count_errors (o :: obs)
     = (if obs_error o then 1 else 0) + count_errors obs.
Proof.
  unfold count_errors. split; [lia|]. cbn [filter].
  destruct (obs_error o); cbn [length]; lia.
Qed.

Lemma count_recommendations_bounds (obs : list observation) (o : observation) :
  0 <= count_recommendations obs
  /\ count_recommendations (o :: obs)
     = (if obs_recommendation o then 1 else 0) + count_recommendations obs.
Proof.
  unfold count_recommendations. split; [lia|]. cbn [filter].
  destruct (obs_recommendation o); cbn [length]; lia.
Qed.

(** While neither counter reaches 2^32, the structure after the recorded
    outcomes holds the two counts and the latencies in arrival order. *)
Lemma record_all_fields (obs : list observation) :
  forall control,
    0 <= numErrors control ->
    0 <= numRecommendations control ->
    numErrors control + count_errors obs < UINT32_MOD ->
    numRecommendations control + count_recommendations obs < UINT32_MOD ->
    numErrors (record_all obs control) = numErrors control + count_errors obs
    /\ numRecommendations (record_all obs control)
       = numRecommendations control + count_recommendations obs
    /\ latencies (record_all obs control)
       = latencies control ++ map obs_latency obs.
Proof.
  induction obs as [|o obs IH]; intros control He Hr Hce Hcr.
  - cbn. rewrite app_nil_r. unfold count_errors, count_recommendations. cbn.
    repeat split; lia.
  - destruct (count_errors_bounds obs o) as [Hpe Hse].
    destruct (count_recommendations_bounds obs o) as [Hpr Hsr].
    rewrite Hse in *. rewrite Hsr in *.
    change (record_all (o :: obs) control)
      with (record_all obs
              (record (obs_error o) (obs_recommendation o) (obs_latency o)
                 control)).
    set (c1 := record (obs_error o) (obs_recommendation o) (obs_latency o)
                 control).
    assert (He1 : numErrors c1
                  = numErrors control + (if obs_error o then 1 else 0)).
    { unfold c1. cbn [record numErrors].
      destruct (obs_error o); [apply to_uint32_id|]; lia. }
    assert (Hr1 : numRecommendations c1
                  = numRecommendations control
                    + (if obs_recommendation o then 1 else 0)).
    { unfold c1. cbn [record numRecommendations].
      destruct (obs_recommendation o); [apply to_uint32_id|]; lia. }
    assert (Hl1 : latencies c1 = latencies control ++ [obs_latency o])
      by reflexivity.
    destruct (IH c1) as (IHe & IHr & IHl).
    + rewrite He1. destruct (obs_error o); lia.
    + rewrite Hr1. destruct (obs_recommendation o); lia.
    + rewrite He1. lia.
    + rewrite Hr1. lia.
    + rewrite IHe, IHr, IHl, He1, Hr1, Hl1, <- app_assoc.
      repeat split; lia.
Qed.

Lemma count_errors_permutation (obs obs' : list observation) :
  Permutation obs obs' ->
  count_errors obs' = count_errors obs
  /\ count_recommendations obs' = count_recommendations obs.
Proof.
  unfold count_errors, count_recommendations.
  induction 1 as [|o l l' _ IH|o1 o2 l|l l' l'' _ IH1 _ IH2]; cbn [filter].
  - split; reflexivity.
  - destruct IH as [IHe IHr].
    destruct (obs_error o), (obs_recommendation o); cbn [length]; lia.
  - destruct (obs_error o1), (obs_error o2), (obs_recommendation o1),
      (obs_recommendation o2); cbn [length]; lia.
  - lia.
Qed.

(** C4, the code's behaviour.  Start from a drained aggregator and let the
    locked blocks of the workers run in any order.  While fewer than 2^31
    of the outcomes are errors and fewer than 2^31 carry the marker, the
    next drain returns the number of errors, the number of marked outcomes
    and one latency for every outcome, errors included. *)
Theorem drain_counts_recorded_outcomes :
  forall (t0 t : float) (control : HttpClientControl)
         (obs arrival : list observation),
    Permutation obs arrival ->
    count_errors obs <= INT_MAX ->
    count_recommendations obs <= INT_MAX ->
    let drained := snd (drainAndReset t0 control) in
    let snap := fst (drainAndReset t (record_all arrival drained)) in
    snap_numErrors snap = count_errors obs
    /\ snap_numRecommendations snap = count_recommendations obs
    /\ length (snap_latencies snap) = length obs
    /\ Permutation (snap_latencies snap) (map obs_latency obs).
Proof.
  intros t0 t control obs arrival Hp He Hr. cbv zeta.
  destruct (count_errors_permutation obs arrival Hp) as [Hce Hcr].
  unfold INT_MAX in He, Hr.
  assert (Hpe : 0 <= count_errors arrival) by (unfold count_errors; lia).
  assert (Hpr : 0 <= count_recommendations arrival)
    by (unfold count_recommendations; lia).
  destruct (record_all_fields arrival (snd (drainAndReset t0 control)))
    as (Hfe & Hfr & Hfl);
    try (cbn [drainAndReset snd numErrors numRecommendations];
         unfold UINT32_MOD; lia).
  cbn [drainAndReset snd numErrors numRecommendations latencies] in Hfe, Hfr, Hfl.
  cbn [drainAndReset fst snap_numErrors snap_numRecommendations snap_latencies].
  cbn [drainAndReset snd] in *.
  rewrite Hfe, Hfr, Hfl. cbn [app].
  rewrite !to_int_id by (unfold INT_MIN, INT_MAX; lia).
  repeat split; try lia.
  - rewrite length_map. symmetry. now apply Permutation_length.
  - apply Permutation_map, Permutation_sym, Hp.
Qed.

(** A timed-out request and a marked one, taking the lock in the other
    order: one error is drained. *)
Lemma drain_counts_two_outcomes :
  snap_numErrors
    (fst (drainAndReset 2
            (record_all
               [ {| obs_error := true; obs_recommendation := false;
                    obs_latency := 9 |};
                 {| obs_error := false; obs_recommendation := true;
                    obs_latency := 0.25 |} ]
               (snd (drainAndReset 1 (initial_control "u" 9))))))
  = 1.
Proof.
  refine (proj1 (drain_counts_recorded_outcomes 1 2 (initial_control "u" 9)
                   [ {| obs_error := false; obs_recommendation := true;
                        obs_latency := 0.25 |};
                     {| obs_error := true; obs_recommendation := false;
                        obs_latency := 9 |} ]
                   _ _ _ _)).
  - apply perm_swap.
  - vm_compute. discriminate.
  - vm_compute. discriminate.
Defined.

(** The error counter after [k] more errors: the sum modulo 2^32. *)
Lemma record_all_errors_wrap (o : observation) (k : nat) :
  obs_error o = true ->
  forall control,
    0 <= numErrors control < UINT32_MOD ->
    numErrors (record_all (repeat o k) control)
    = (numErrors control + Z.of_nat k) mod UINT32_MOD.
Proof.
  intros Ho. induction k as [|k IH]; intros control Hc.
  - cbn [repeat record_all fold_left]. rewrite Z.add_0_r.
    symmetry. now apply Z.mod_small.
  - change (record_all (repeat o (S k)) control)
      with (record_all (repeat o k)
              (record (obs_error o) (obs_recommendation o) (obs_latency o)
                 control)).
    rewrite IH.
    + cbn [record numErrors]. rewrite Ho. unfold to_uint32.
      rewrite Z.add_mod_idemp_l by (unfold UINT32_MOD; lia).
      f_equal. lia.
    + cbn [record numErrors]. rewrite Ho. unfold to_uint32.
      apply Z.mod_pos_bound. unfold UINT32_MOD. lia.
Qed.

Lemma count_errors_repeat (o : observation) (k : nat) :
  obs_error o = true -> count_errors (repeat o k) = Z.of_nat k.
Proof.
  intros Ho. unfold count_errors. f_equal.
  induction k as [|k IH]; [reflexivity|].
  cbn [repeat filter]. rewrite Ho. cbn [length]. now rewrite IH.
Qed.

(** C4, as stated, fails once a counter wraps: after 2^32 errors recorded
    on a drained aggregator the drain returns an error count of 0. *)
Lemma drain_after_4294967296_errors :
  let o := {| obs_error := true; obs_recommendation := false;
              obs_latency := 9 |} in
  let obs := repeat o (Z.to_nat 4294967296) in
  count_errors obs = 4294967296
  /\ snap_numErrors
       (fst (drainAndReset 2
               (record_all obs (snd (drainAndReset 1 (initial_control "u" 9))))))
     = 0.
Proof.
  cbv zeta. split.
  - rewrite count_errors_repeat by reflexivity. now rewrite Z2Nat.id.
  - cbn [drainAndReset fst snap_numErrors].
    rewrite record_all_errors_wrap.
    + rewrite Z2Nat.id by discriminate. reflexivity.
    + reflexivity.
    + cbn. unfold UINT32_MOD. lia.
Qed.

(** ** The bracket on samples of two and more

    Beside C6: the order of the five values holds from two elements on,
    over an element type that meets [ValueOrder]. *)

Section Bracket.

Context {V : Type} `{ValueOrder V}.

Lemma not_greater_refl (x : V) : not_greater x x.
Proof.
  unfold not_greater. destruct (lt x x) eqn:E; [|reflexivity].
  pose proof (lt_asym x x E). congruence.
Qed.

Lemma insert_permutation (x : V) (l : list V) : Permutation (x :: l) (insert x l).
Proof.
  induction l as [|y l IH]; cbn [insert]; [reflexivity|].
  destruct (lt x y); [reflexivity|].
  etransitivity; [apply perm_swap|]. now apply perm_skip.
Qed.

Lemma sort_permutation (l : list V) : Permutation l (sort l).
Proof.
  induction l as [|x l IH]; cbn [sort]; [constructor|].
  etransitivity; [apply perm_skip, IH | apply insert_permutation].
Qed.

Lemma insert_sorted (x : V) (l : list V) :
  StronglySorted not_greater l -> StronglySorted not_greater (insert x l).
Proof.
  induction 1 as [|y l Hs IH Hy]; cbn [insert].
  - repeat constructor.
  - destruct (lt x y) eqn:Hxy.
    + assert (Hle : not_greater x y) by (apply lt_asym, Hxy).
      constructor; [now constructor|].
      constructor; [assumption|].
      eapply Forall_impl; [|exact Hy].
      intros z Hz. now apply (not_greater_trans x y z).
    + constructor; [assumption|].
      apply (Permutation_Forall (insert_permutation x l)).
      constructor; assumption.
Qed.

Lemma sort_sorted (l : list V) : StronglySorted not_greater (sort l).
Proof.
  induction l as [|x l IH]; cbn [sort]; [constructor | now apply insert_sorted].
Qed.

Lemma sorted_nth_monotone (s : list V) :
  StronglySorted not_greater s ->
  forall (i j : nat) (x y : V),
    (i <= j)%nat -> nth_error s i = Some x -> nth_error s j = Some y ->
    not_greater x y.
Proof.
  induction 1 as [|a l Hs IH Ha]; intros i j x y Hij Hx Hy.
  - destruct i; discriminate.
  - destruct i as [|i], j as [|j]; cbn [nth_error] in Hx, Hy; try lia.
    + injection Hx as <-. injection Hy as <-. apply not_greater_refl.
    + injection Hx as <-. apply nth_error_In in Hy.
      rewrite Forall_forall in Ha. now apply Ha.
    + apply (IH i j); [lia | assumption..].
Qed.

Lemma deref_in_bounds (a : list V) (i : Z) :
  0 <= i < Z.of_nat (length a) ->
  exists x, nth_error a (Z.to_nat i) = Some x /\ deref a i = Ok x.
Proof.
  intros Hi. unfold deref.
  destruct (Z.ltb_spec i 0) as [Hneg|_]; [lia|].
  destruct (nth_error a (Z.to_nat i)) as [x|] eqn:Hx.
  - now exists x.
  - apply nth_error_None in Hx. lia.
Qed.

(** On a sorted vector the median of a range lies between the elements at
    offsets [(n-1)/2] and [n/2] of the range. *)
Lemma median_between (s : list V) (first last : Z) :
  StronglySorted not_greater s ->
  0 <= first -> last <= Z.of_nat (length s) ->
  1 <= last - first <= INT_MAX ->
  exists m lo hi,
    median s first last = Ok m
    /\ nth_error s (Z.to_nat (first + (last - first - 1) / 2)) = Some lo
    /\ nth_error s (Z.to_nat (first + (last - first) / 2)) = Some hi
    /\ not_greater lo m /\ not_greater m hi.
Proof.
  intros Hs Hf Hl Hn. rewrite median_unfold by assumption.
  destruct (deref_in_bounds s (first + (last - first - 1) / 2))
    as (x & Hx & Hdx); [lia_div|].
  destruct (Z.eqb_spec ((last - first - 1) mod 2) 0) as [Hodd|Heven].
  - exists x, x, x. rewrite Hdx.
    replace ((last - first) / 2) with ((last - first - 1) / 2) by lia_div.
    repeat split; try assumption; apply not_greater_refl.
  - destruct (deref_in_bounds s (first + (last - first - 1) / 2 + 1))
      as (y & Hy & Hdy); [lia_div|].
    assert (Hxy : not_greater x y).
    { apply (sorted_nth_monotone s Hs
               (Z.to_nat (first + (last - first - 1) / 2))
               (Z.to_nat (first + (last - first - 1) / 2 + 1)));
        [lia | assumption..]. }
    destruct (mean_between x y Hxy) as [Hlo Hhi].
    exists (half (add x y)), x, y. rewrite Hdx. cbn [bind]. rewrite Hdy.
    replace (first + (last - first) / 2)
      with (first + (last - first - 1) / 2 + 1) by lia_div.
    repeat split; assumption.
Qed.

Lemma sorted_offsets_ordered (s : list V) (i j : Z) (x y : V) :
  StronglySorted not_greater s ->
  0 <= i <= j ->
  nth_error s (Z.to_nat i) = Some x -> nth_error s (Z.to_nat j) = Some y ->
  not_greater x y.
Proof.
  intros Hs Hij Hx Hy.
  apply (sorted_nth_monotone s Hs (Z.to_nat i) (Z.to_nat j)); [lia | assumption..].
Qed.

End Bracket.


(** Exact rationals meet [ValueOrder]. *)
Lemma Value_Q_order : ValueOrder Q.
Proof.
  assert (Hle : forall x y : Q, not_greater x y <-> (x <= y)%Q).
  { intros x y. unfold not_greater. cbn [lt Value_Q].
    rewrite negb_false_iff. apply Qle_bool_iff. }
  constructor.
  - intros x y Hxy. apply Hle. cbn [lt Value_Q] in Hxy.
    rewrite negb_true_iff in Hxy.
    apply Qlt_le_weak, Qnot_le_lt. intros Hyx.
    apply Qle_bool_iff in Hyx. congruence.
  - intros x y z Hxy Hyz. apply Hle. apply Hle in Hxy, Hyz.
    now apply (Qle_trans x y z).
  - intros x y Hxy. apply Hle in Hxy. rewrite !Hle. cbn [half add Value_Q].
    unfold Qdiv. change (/ (2 # 1))%Q with (1 # 2)%Q. split; lra.
Qed.


(** Binary64 does not meet [ValueOrder]: the sum of two large values
    overflows, and the median of the largest finite value taken twice is
    infinite. *)
Example quartiles_double_overflow :
  let big := 0x1.fffffffffffffp+1023%float in
  quartiles [big; big] = Ok (Array5 big big infinity big big)
  /\ PrimFloat.ltb big infinity = true.
Proof. vm_compute. split; reflexivity. Qed.

(** * Further properties of the code *)

(** ** Which samples [quartiles] accepts *)

Section QuartilesDefined.

Context {V : Type} `{Value V}.

Lemma sort_length (a : list V) : length (sort a) = length a.
Proof. symmetry. apply Permutation_length, sort_permutation. Qed.

Lemma median_returns (a : list V) (first last : Z) :
  0 <= first -> last <= Z.of_nat (length a) ->
  1 <= last - first <= INT_MAX ->
  returns (median a first last).
Proof.
  intros Hf Hl Hn. rewrite median_unfold by assumption.
  destruct (deref_in_bounds a (first + (last - first - 1) / 2))
    as (x & _ & Hdx); [lia_div|].
  destruct (Z.eqb_spec ((last - first - 1) mod 2) 0) as [Hodd|Heven].
  - now exists x.
  - destruct (deref_in_bounds a (first + (last - first - 1) / 2 + 1))
      as (y & _ & Hdy); [lia_div|].
    rewrite Hdx. cbn [bind]. rewrite Hdy. now eexists.
Qed.

(** From two elements on, every read of [quartiles] is inside the sorted
    vector: the result is built from its first and last elements and three
    medians that return. *)
Lemma quartiles_from_two (a : list V) :
  2 <= Z.of_nat (length a) <= INT_MAX ->
  exists r0 r1 r2 r3 r4,
    nth_error (sort a) 0 = Some r0
    /\ nth_error (sort a) (length a - 1) = Some r4
    /\ quartiles a = Ok (Array5 r0 r1 r2 r3 r4).
Proof.
  intros Hn. unfold quartiles. cbv zeta.
  destruct (Z.ltb_spec (Z.of_nat (length a)) 1) as [Hlt|_]; [lia|].
  pose proof (sort_length a) as Hlen.
  destruct (deref_in_bounds (sort a) 0) as (r0 & H0 & Hd0); [lia|].
  destruct (deref_in_bounds (sort a) (Z.of_nat (length a) - 1))
    as (r4 & H4 & Hd4); [lia|].
  destruct (median_returns (sort a) 0 (Z.of_nat (length a))) as [r2 Hm2];
    [lia..|].
  destruct (median_returns (sort a) 0 (Z.of_nat (length a) / 2)) as [r1 Hm1];
    [lia_div..|].
  destruct (median_returns (sort a) (Z.of_nat (length a) / 2)
              (Z.of_nat (length a))) as [r3 Hm3]; [lia_div..|].
  exists r0, r1, r2, r3, r4. rewrite Hd0, Hd4, Hm2, Hm1, Hm3. cbn [bind].
  repeat split; [exact H0|].
  replace (length a - 1)%nat with (Z.to_nat (Z.of_nat (length a) - 1)) by lia.
  exact H4.
Qed.

End QuartilesDefined.



(** ** Minimum, maximum and the order of arrival *)

Section Extremes.

Context {V : Type} `{ValueOrder V}.

Lemma sorted_first_least (s : list V) (x0 x : V) :
  StronglySorted not_greater s ->
  nth_error s 0 = Some x0 -> In x s -> not_greater x0 x.
Proof.
  intros Hs Hx0 Hin. apply In_nth_error in Hin. destruct Hin as [i Hi].
  apply (sorted_nth_monotone s Hs 0 i); [lia | assumption..].
Qed.

Lemma sorted_last_greatest (s : list V) (xn x : V) :
  StronglySorted not_greater s ->
  nth_error s (length s - 1) = Some xn -> In x s -> not_greater x xn.
Proof.
  intros Hs Hn Hin. apply In_nth_error in Hin. destruct Hin as [i Hi].
  assert (Hlt : (i < length s)%nat)
    by (apply nth_error_Some; rewrite Hi; discriminate).
  apply (sorted_nth_monotone s Hs i (length s - 1)); [lia | assumption..].
Qed.

(** Two sorted arrangements of the same elements are the same list once
    values that are not greater than each other are equal. *)
Lemma sorted_arrangement_unique (l1 : list V) :
  (forall x y : V, not_greater x y -> not_greater y x -> x = y) ->
  forall l2,
    StronglySorted not_greater l1 -> StronglySorted not_greater l2 ->
    Permutation l1 l2 -> l1 = l2.
Proof.
  intros Hanti. induction l1 as [|a l1 IH]; intros l2 Hs1 Hs2 Hp.
  - now apply Permutation_nil in Hp.
  - destruct l2 as [|b l2].
    + apply Permutation_sym, Permutation_nil in Hp. discriminate.
    + assert (Hab : a = b).
      { apply Hanti.
        - apply (sorted_first_least (a :: l1) a b Hs1 eq_refl).
          apply (Permutation_in b (Permutation_sym Hp)). now left.
        - apply (sorted_first_least (b :: l2) b a Hs2 eq_refl).
          apply (Permutation_in a Hp). now left. }
      subst b. f_equal. apply IH.
      * now inversion Hs1.
      * now inversion Hs2.
      * now apply Permutation_cons_inv in Hp.
Qed.

End Extremes.


(** Exact integers meet [ValueOrder], and [operator<] tells any two of them
    apart. *)
Lemma Value_Z_order : ValueOrder Z.
Proof.
  assert (Hle : forall x y : Z, not_greater x y <-> x <= y).
  { intros x y. unfold not_greater. cbn [lt Value_Z]. apply Z.ltb_ge. }
  constructor.
  - intros x y Hxy. apply Hle. cbn [lt Value_Z] in Hxy.
    apply Z.ltb_lt in Hxy. lia.
  - intros x y z Hxy Hyz. apply Hle. apply Hle in Hxy, Hyz. lia.
  - intros x y Hxy. apply Hle in Hxy. rewrite !Hle. cbn [half add Value_Z].
    pose proof (Z.quot_rem' (x + y) 2) as Hqr.
    pose proof (Z.rem_bound_abs (x + y) 2) as Hab.
    split; lia.
Qed.

Lemma Value_Z_antisymmetric (x y : Z) :
  not_greater x y -> not_greater y x -> x = y.
Proof.
  unfold not_greater. cbn [lt Value_Z]. rewrite !Z.ltb_ge. lia.
Qed.




(** ** The median of an empty range *)

(** X5. [median] does not notice an empty range: when two elements follow
    the place where the range starts it returns their mean, and it reads
    past the end of the vector otherwise. *)
Theorem median_of_empty_range :
  forall (V : Type) (ops : Value V) (a : list V) (first : Z),
    0 <= first ->
    (forall x y,
       nth_error a (Z.to_nat first) = Some x ->
       nth_error a (Z.to_nat (first + 1)) = Some y ->
       median a first first = Ok (half (add x y)))
    /\ (Z.of_nat (length a) <= first + 1 ->
        exists i, median a first first = Undefined (OutOfBounds i)
                  /\ Z.of_nat (length a) <= i).
Proof.
  intros V ops a first Hf.
  assert (Hm : median a first first
               = (x <- deref a first ;; y <- deref a (first + 1) ;;
                  Ok (half (add x y)))).
  { unfold median. cbv zeta. rewrite Z.sub_diag.
    change (to_int 0) with 0. change (int_arith (0 - 1)) with (Ok (-1)).
    cbn [bind]. change (Z.rem (-1) 2 =? 0) with false. cbv iota.
    change (Z.quot (-1) 2) with 0. now rewrite Z.add_0_r. }
  rewrite Hm. unfold deref.
  destruct (Z.ltb_spec first 0) as [Hneg|_]; [lia|].
  destruct (Z.ltb_spec (first + 1) 0) as [Hneg|_]; [lia|].
  split.
  - intros x y Hx Hy. now rewrite Hx, Hy.
  - intros Hlen.
    destruct (nth_error a (Z.to_nat first)) as [x|] eqn:Hx; cbn [bind].
    + assert (Hy : nth_error a (Z.to_nat (first + 1)) = None)
        by (apply nth_error_None; lia).
      rewrite Hy. exists (first + 1). split; [reflexivity | lia].
    + apply nth_error_None in Hx. exists first. split; [reflexivity | lia].
Qed.

(** Inside 1, 2, 3, 4 the empty range at offset 1 has "median" 2.5. *)
Lemma median_of_empty_range_inside :
  median [1; 2; 3; 4]%float 1 1 = Ok 2.5%float.
Proof.
  refine (proj1 (median_of_empty_range float Value_double
                   [1; 2; 3; 4]%float 1 _) 2%float 3%float _ _).
  - lia.
  - reflexivity.
  - reflexivity.
Defined.

(** ** The callback on any buffer *)

Lemma memchr_from_prefix (c : byte) (n : nat) :
  forall (s : list byte) (off : N),
    match memchr_from off s c n with Some _ => true | None => false end
    = existsb (fun b => Byte.eqb b c) (firstn n s).
Proof.
  induction n as [|n IH]; intros s off.
  - now destruct s.
  - destruct s as [|b s]; [reflexivity|].
    cbn [memchr_from firstn existsb].
    destruct (Byte.eqb b c); [reflexivity | apply IH].
Qed.


Example nullWriter_ignores_bytes_past_the_count :
  nullWriter [x41; x80] 1 1 false = (false, 1%N)
  /\ nullWriter [x41; x80] 1 2 false = (true, 2%N)
  /\ nullWriter [x80] 3 0 false = (false, 0%N).
Proof. repeat split. Qed.

(** ** Runs of locked blocks *)

(** Neither locked block touches the URL, the timeout or the flag. *)
Lemma record_all_frame (obs : list observation) :
  forall control,
    url (record_all obs control) = url control
    /\ timeout (record_all obs control) = timeout control
    /\ running (record_all obs control) = running control.
Proof.
  induction obs as [|o obs IH]; intros control; [repeat split|].
  change (record_all (o :: obs) control)
    with (record_all obs
            (record (obs_error o) (obs_recommendation o) (obs_latency o)
               control)).
  destruct (IH (record (obs_error o) (obs_recommendation o) (obs_latency o)
                  control)) as (Hu & Ht & Hr).
  rewrite Hu, Ht, Hr. repeat split.
Qed.

Lemma record_all_latencies (obs : list observation) :
  forall control,
    latencies (record_all obs control)
    = latencies control ++ map obs_latency obs.
Proof.
  induction obs as [|o obs IH]; intros control.
  - cbn. now rewrite app_nil_r.
  - change (record_all (o :: obs) control)
      with (record_all obs
              (record (obs_error o) (obs_recommendation o) (obs_latency o)
                 control)).
    rewrite IH. cbn [record latencies map]. now rewrite <- app_assoc.
Qed.

Lemma to_uint32_succ (x : Z) :
  0 <= x -> 0 <= to_uint32 (x + 1) < UINT32_MOD /\ to_uint32 (x + 1) <= x + 1.
Proof.
  intros Hx. unfold to_uint32, UINT32_MOD. split.
  - apply Z.mod_pos_bound. lia.
  - apply Z.mod_le; lia.
Qed.

Lemma record_counters_within (e r : bool) (l : float)
  (control : HttpClientControl) :
  counters_within control -> counters_within (record e r l control).
Proof.
  unfold counters_within. intros (He & Hr & Hel & Hrl).
  cbn [record numErrors numRecommendations latencies].
  rewrite length_app. cbn [length].
  pose proof (to_uint32_succ (numErrors control) (proj1 He)) as Hse.
  pose proof (to_uint32_succ (numRecommendations control) (proj1 Hr)) as Hsr.
  destruct e, r; repeat split; lia.
Qed.

Lemma run_counters_within (events : list event) :
  forall control,
    counters_within control -> counters_within (snd (run events control)).
Proof.
  induction events as [|[o|now] events IH]; intros control Hc.
  - exact Hc.
  - cbn [run]. apply IH. now apply record_counters_within.
  - cbn [run].
    destruct (drainAndReset now control) as [snap c1] eqn:Hd.
    specialize (IH c1). destruct (run events c1) as [snaps c2].
    cbn [snd] in *. apply IH.
    unfold drainAndReset in Hd. injection Hd as _ <-.
    unfold counters_within, UINT32_MOD. cbn. lia.
Qed.

Lemma run_frame (events : list event) :
  forall c,
    url (snd (run events c)) = url c
    /\ timeout (snd (run events c)) = timeout c
    /\ running (snd (run events c)) = running c.
Proof.
  induction events as [|[o|now] events IH]; intros c.
  - repeat split.
  - cbn [run]. destruct (IH (record (obs_error o) (obs_recommendation o)
                                (obs_latency o) c)) as (Hu & Ht & Hr).
    rewrite Hu, Ht, Hr. repeat split.
  - cbn [run]. destruct (drainAndReset now c) as [snap c1] eqn:Hd.
    specialize (IH c1). destruct (run events c1) as [snaps c2].
    cbn [snd] in *. unfold drainAndReset in Hd. injection Hd as _ <-.
    exact IH.
Qed.

(** X7. However the locked blocks of the workers and of [main] interleave
    after start-up, neither counter ever exceeds the number of latencies
    in the vector, both stay below 2^32, and the URL, the timeout and the
    [running] flag are as start-up left them. *)
Theorem counters_never_exceed_samples :
  forall (events : list event) (u : string) (t : Z),
    let control := snd (run events (initial_control u t)) in
    0 <= numErrors control <= Z.of_nat (length (latencies control))
    /\ 0 <= numRecommendations control <= Z.of_nat (length (latencies control))
    /\ numErrors control < UINT32_MOD
    /\ numRecommendations control < UINT32_MOD
    /\ url control = u /\ timeout control = t /\ running control = true.
Proof.
  intros events u t. cbv zeta.
  assert (Hc : counters_within (snd (run events (initial_control u t)))).
  { apply run_counters_within. unfold counters_within, UINT32_MOD. cbn. lia. }
  destruct Hc as (He & Hr & Hel & Hrl).
  destruct (run_frame events (initial_control u t)) as (Hu & Ht & Hrun).
  repeat split; try lia; assumption.
Qed.

(** X8. No latency is lost or reported twice: the vectors the drains took,
    one after the other, followed by what is left in the structure, are
    the latencies the structure held at first followed by the recorded
    ones in the order of their locked blocks. *)
Theorem drains_partition_recorded_latencies :
  forall (events : list event) (control : HttpClientControl),
    concat (map snap_latencies (fst (run events control)))
    ++ latencies (snd (run events control))
    = latencies control ++ recorded_latencies events.
Proof.
  induction events as [|[o|now] events IH]; intros control.
  - cbn. now rewrite app_nil_r.
  - cbn [run recorded_latencies flat_map]. rewrite IH.
    cbn [record latencies]. now rewrite <- app_assoc.
  - cbn [run recorded_latencies flat_map app].
    destruct (drainAndReset now control) as [snap c1] eqn:Hd.
    pose proof (IH c1) as IHc. revert IHc.
    destruct (run events c1) as [snaps c2]. cbn [fst snd map concat].
    intros IHc. rewrite <- app_assoc, IHc.
    unfold drainAndReset in Hd. injection Hd as <- <-.
    reflexivity.
Qed.

(** ** What a printed report says *)

Lemma bind_ok {A B : Type} (c : outcome A) (k : A -> outcome B) (b : B) :
  bind c k = Ok b -> exists a, c = Ok a /\ k a = Ok b.
Proof. destruct c as [a| |]; try discriminate. intros Hk. now exists a. Qed.

Lemma quartiles_returns_two {V : Type} `{Value V} (a : list V) :
  returns (quartiles a) -> 2 <= Z.of_nat (length a).
Proof.
  intros [r Hr]. destruct a as [|x [|y a]]; try discriminate Hr.
  cbn [length]. lia.
Qed.

(** A tick that prints: the structure it leaves and where the printed
    integers come from. *)
Lemma report_tick_inv (signo : Z) (lastReportTime now : float)
  (control control' : HttpClientControl) (line : report) :
  report_tick signo lastReportTime now control = Ok (line, control') ->
  control' = {| url := url control; timeout := timeout control;
                running := if 0 <? signo then false else running control;
                numErrors := 0; numRecommendations := 0; latencies := [] |}
  /\ rep_time line = now
  /\ rep_numErrors line = to_int (numErrors control)
  /\ int_arith (to_int (numRecommendations control) * 100)
     = Ok (to_int (numRecommendations control) * 100)
  /\ rep_recommendationRate line
     = to_int (to_size_t (to_int (numRecommendations control) * 100)
               / Z.of_nat (length (latencies control)))
  /\ 2 <= Z.of_nat (length (latencies control)).
Proof.
  intros Hrun. unfold report_tick in Hrun.
  set (c1 := if 0 <? signo then _ else control) in Hrun.
  assert (Hc1 : url c1 = url control /\ timeout c1 = timeout control
                /\ running c1 = (if 0 <? signo then false else running control)
                /\ numErrors c1 = numErrors control
                /\ numRecommendations c1 = numRecommendations control
                /\ latencies c1 = latencies control)
    by (unfold c1; destruct (0 <? signo); repeat split).
  destruct Hc1 as (Hu & Ht & Hr & He & Hn & Hl).
  unfold drainAndReset in Hrun.
  cbn [snap_numErrors snap_numRecommendations snap_latencies snap_reportTime]
    in Hrun.
  rewrite Hu, Ht, Hr, He, Hn, Hl in Hrun.
  apply bind_ok in Hrun. destruct Hrun as (throughput & _ & Hrun).
  apply bind_ok in Hrun. destruct Hrun as (scaled & Hscaled & Hrun).
  apply bind_ok in Hrun. destruct Hrun as (rate & Hrate & Hrun).
  apply bind_ok in Hrun. destruct Hrun as (q & Hq & Hrun).
  apply bind_ok in Hrun. destruct Hrun as (ms0 & _ & Hrun).
  apply bind_ok in Hrun. destruct Hrun as (ms1 & _ & Hrun).
  apply bind_ok in Hrun. destruct Hrun as (ms2 & _ & Hrun).
  apply bind_ok in Hrun. destruct Hrun as (ms3 & _ & Hrun).
  apply bind_ok in Hrun. destruct Hrun as (ms4 & _ & Hrun).
  injection Hrun as <- <-. cbn [rep_time rep_numErrors rep_recommendationRate].
  assert (Hs : scaled = to_int (numRecommendations control) * 100).
  { unfold int_arith in Hscaled.
    destruct (in_int (to_int (numRecommendations control) * 100));
      [now injection Hscaled | discriminate]. }
  subst scaled.
  destruct (Z.of_nat (length (latencies control)) =? 0); [discriminate|].
  injection Hrate as <-.
  repeat split; try assumption.
  apply quartiles_returns_two. now exists q.
Qed.

Lemma count_le_length (obs : list observation) :
  0 <= count_errors obs <= Z.of_nat (length obs)
  /\ 0 <= count_recommendations obs <= Z.of_nat (length obs).
Proof.
  unfold count_errors, count_recommendations.
  pose proof (filter_length_le obs_error obs).
  pose proof (filter_length_le obs_recommendation obs). lia.
Qed.



(** ** Windows do not leak into each other *)

Lemma record_all_same_fields (obs : list observation) :
  forall c c',
    numErrors c = numErrors c' ->
    numRecommendations c = numRecommendations c' ->
    latencies c = latencies c' ->
    numErrors (record_all obs c) = numErrors (record_all obs c')
    /\ numRecommendations (record_all obs c)
       = numRecommendations (record_all obs c')
    /\ latencies (record_all obs c) = latencies (record_all obs c').
Proof.
  induction obs as [|o obs IH]; intros c c' He Hr Hl; [now repeat split|].
  change (record_all (o :: obs) c)
    with (record_all obs
            (record (obs_error o) (obs_recommendation o) (obs_latency o) c)).
  change (record_all (o :: obs) c')
    with (record_all obs
            (record (obs_error o) (obs_recommendation o) (obs_latency o) c')).
  apply IH; cbn [record numErrors numRecommendations latencies];
    rewrite ?He, ?Hr, ?Hl; reflexivity.
Qed.

Lemma report_tick_same_fields (signo : Z) (lastReportTime now : float)
  (c c' : HttpClientControl) :
  numErrors c = numErrors c' ->
  numRecommendations c = numRecommendations c' ->
  latencies c = latencies c' ->
  printed (report_tick signo lastReportTime now c)
  = printed (report_tick signo lastReportTime now c').
Proof.
  intros He Hr Hl. unfold report_tick, drainAndReset.
  destruct (0 <? signo);
    cbn [snap_numErrors snap_numRecommendations snap_latencies
         snap_reportTime numErrors numRecommendations latencies];
    rewrite He, Hr, Hl; unfold printed;
    repeat (match goal with
            | |- bind (bind ?c _) _ = bind (bind ?c _) _ =>
                destruct c; cbn [bind]; try reflexivity
            end).
Qed.

(** X10. A report line describes its own window only: after the same
    outcomes recorded on two drained aggregators, whatever was recorded
    and drained before and whatever URL, timeout and [running] flag they
    hold, the same tick prints the same line or fails in the same way. *)
Theorem report_line_ignores_history :
  forall (obs : list observation) (signo : Z) (lastReportTime now : float)
         (t0 t0' : float) (control0 control0' : HttpClientControl),
    printed (report_tick signo lastReportTime now
               (record_all obs (snd (drainAndReset t0 control0))))
    = printed (report_tick signo lastReportTime now
                 (record_all obs (snd (drainAndReset t0' control0')))).
Proof.
  intros obs signo lastReportTime now t0 t0' control0 control0'.
  destruct (record_all_same_fields obs (snd (drainAndReset t0 control0))
              (snd (drainAndReset t0' control0')))
    as (He & Hr & Hl); try reflexivity.
  now apply report_tick_same_fields.
Qed.

(** ** The report loop and the signal *)

Lemma report_loop_stopped (ticks : list tick) (signo : Z) (last : float)
  (control : HttpClientControl) :
  running control = false ->
  report_loop ticks signo last control = Ok ([], LoopLeft signo, control).
Proof. intros Hr. destruct ticks; cbn [report_loop]; now rewrite Hr. Qed.

Lemma report_loop_step (tk : tick) (rest : list tick) (signo : Z)
  (last : float) (control : HttpClientControl) :
  running control = true ->
  report_loop (tk :: rest) signo last control
  = (step <- report_tick (tk_signo tk) last (tk_now tk)
               (record_all (tk_recorded tk) control) ;;
     more <- report_loop rest (tk_signo tk) (rep_time (fst step)) (snd step) ;;
     Ok (fst step :: fst (fst more), snd (fst more), snd more)).
Proof.
  intros Hr. cbn [report_loop]. rewrite Hr. cbv zeta.
  destruct (report_tick (tk_signo tk) last (tk_now tk)
              (record_all (tk_recorded tk) control)) as [[line c1]| |];
    cbn [bind fst snd]; try reflexivity.
  destruct (report_loop rest (tk_signo tk) (rep_time line) c1)
    as [[[lines ending] c2]| |]; reflexivity.
Qed.

(** The flag after a tick that prints, on a structure the workers wrote
    to in between. *)
Lemma report_tick_running (tk : tick) (last : float)
  (control c1 : HttpClientControl) (line : report) :
  report_tick (tk_signo tk) last (tk_now tk)
    (record_all (tk_recorded tk) control) = Ok (line, c1) ->
  running c1 = (if 0 <? tk_signo tk then false else running control)
  /\ numErrors c1 = 0 /\ numRecommendations c1 = 0 /\ latencies c1 = [].
Proof.
  intros Hrun. apply report_tick_inv in Hrun. destruct Hrun as (-> & _).
  cbn [running numErrors numRecommendations latencies].
  destruct (record_all_frame (tk_recorded tk) control) as (_ & _ & ->).
  repeat split.
Qed.



Example report_loop_prints_the_last_window :
  let w := [ {| obs_error := false; obs_recommendation := false;
                obs_latency := 0.5 |};
             {| obs_error := true; obs_recommendation := true;
                obs_latency := 0.25 |} ] in
  exists line1 line2 control',
    report_loop [ {| tk_recorded := w; tk_signo := -1; tk_now := 101 |};
                  {| tk_recorded := w; tk_signo := 2; tk_now := 102 |} ]
      0 100 (initial_control "u" 9)
    = Ok ([line1; line2], LoopLeft 2, control')
    /\ rep_numErrors line2 = 1 /\ running control' = false.
Proof. cbv zeta. do 3 eexists. vm_compute. repeat split. Qed.

(** ** The worker's loop *)

Lemma has_marker_in (bytes : list byte) :
  has_marker bytes
  = if in_dec Byte.byte_eq_dec x80 bytes then true else false.
Proof.
  unfold has_marker. rewrite marker_byte.
  destruct (in_dec Byte.byte_eq_dec x80 bytes) as [Hin|Hnot].
  - apply existsb_exists. exists x80. split; [assumption | reflexivity].
  - destruct (existsb (fun b => Byte.eqb b x80) bytes) eqn:E; [|reflexivity].
    exfalso. apply Hnot. apply existsb_exists in E.
    destruct E as (b & Hb & Heq). apply Byte.byte_dec_bl in Heq. now subst b.
Qed.

(** One passage of the loop records the request's outcome, whatever flag
    the passage before left. *)
Lemma httpClientMain_iteration_records (rq : request) (flag : bool)
  (control : HttpClientControl) :
  httpClientMain_iteration rq flag control
  = (obs_recommendation (observation_of rq),
     record (obs_error (observation_of rq))
       (obs_recommendation (observation_of rq))
       (obs_latency (observation_of rq)) control).
Proof.
  unfold httpClientMain_iteration. rewrite curl_easy_perform_scan.
  cbn [observation_of obs_error obs_recommendation obs_latency].
  now rewrite has_marker_in.
Qed.

(** X12. A failed request never ends a worker.  While [running] is set the
    loop performs every request it meets and records for each, in order,
    one outcome: an error exactly when the transfer's result code is not 0,
    a marked outcome exactly when the body holds the byte 128, and the
    latency [finish - start]; so the vector grows by one latency per
    request.  When [running] is cleared the worker starts no request,
    leaves the structure alone and returns 0. *)
Theorem httpClientMain_records_every_request :
  forall (rqs : list request) (flag : bool) (control : HttpClientControl),
    (running control = true ->
     (exists flag',
        httpClientMain rqs flag control
        = (WorkerRunning flag', record_all (map observation_of rqs) control))
     /\ latencies (snd (httpClientMain rqs flag control))
        = latencies control
          ++ map (fun rq => (rq_finish rq - rq_start rq)%float) rqs)
    /\ (running control = false ->
        httpClientMain rqs flag control = (WorkerReturned 0, control)).
Proof.
  intros rqs flag control. split.
  - intros Hrun.
    assert (Hloop : exists flag',
               httpClientMain rqs flag control
               = (WorkerRunning flag',
                  record_all (map observation_of rqs) control)).
    { revert flag control Hrun.
      induction rqs as [|rq rqs IH]; intros flag control Hrun.
      - exists flag. cbn [httpClientMain]. now rewrite Hrun.
      - cbn [httpClientMain]. rewrite Hrun.
        rewrite httpClientMain_iteration_records. apply IH. exact Hrun. }
    split; [exact Hloop|].
    destruct Hloop as [flag' ->]. cbn [snd].
    rewrite record_all_latencies, map_map. reflexivity.
  - intros Hstop. destruct rqs; cbn [httpClientMain]; now rewrite Hstop.
Qed.

Example httpClientMain_keeps_going_after_errors :
  let timed_out := {| rq_body := []; rq_code := 28;
                      rq_start := 10; rq_finish := 19 |} in
  let marked := {| rq_body := [[x41]; [x42; x80]]; rq_code := 0;
                   rq_start := 19; rq_finish := 19.25 |} in
  httpClientMain [timed_out; marked; timed_out] false (initial_control "u" 9)
  = (WorkerRunning false,
     {| url := "u"; timeout := 9; running := true;
        numErrors := 2; numRecommendations := 1;
        latencies := [9; 0.25; 9]%float |}).
Proof. vm_compute. reflexivity. Qed.

(** ** Counts across several drains *)

Lemma run_totals (events : list event) :
  forall control,
    0 <= numErrors control ->
    0 <= numRecommendations control ->
    numErrors control + recorded_errors events <= INT_MAX ->
    numRecommendations control + recorded_recommendations events <= INT_MAX ->
    total (map snap_numErrors (fst (run events control)))
    + numErrors (snd (run events control))
    = numErrors control + recorded_errors events
    /\ total (map snap_numRecommendations (fst (run events control)))
       + numRecommendations (snd (run events control))
       = numRecommendations control + recorded_recommendations events.
Proof.
  unfold recorded_errors, recorded_recommendations, INT_MAX.
  induction events as [|[o|now] events IH]; intros control He Hr Hbe Hbr.
  - cbn. lia.
  - cbn [run]. cbn [filter] in *.
    set (c1 := record (obs_error o) (obs_recommendation o) (obs_latency o)
                 control).
    assert (He1 : numErrors c1
                  = numErrors control + (if obs_error o then 1 else 0)).
    { unfold c1. cbn [record numErrors].
      destruct (obs_error o); cbn [length] in Hbe;
        [apply to_uint32_id; unfold UINT32_MOD|]; lia. }
    assert (Hr1 : numRecommendations c1
                  = numRecommendations control
                    + (if obs_recommendation o then 1 else 0)).
    { unfold c1. cbn [record numRecommendations].
      destruct (obs_recommendation o); cbn [length] in Hbr;
        [apply to_uint32_id; unfold UINT32_MOD|]; lia. }
    destruct (IH c1) as [IHe IHr].
    + rewrite He1. destruct (obs_error o); lia.
    + rewrite Hr1. destruct (obs_recommendation o); lia.
    + rewrite He1. destruct (obs_error o); cbn [length] in Hbe; lia.
    + rewrite Hr1. destruct (obs_recommendation o); cbn [length] in Hbr; lia.
    + rewrite IHe, IHr, He1, Hr1.
      destruct (obs_error o), (obs_recommendation o); cbn [length]; lia.
  - cbn [run]. cbn [filter] in *.
    destruct (drainAndReset now control) as [snap c1] eqn:Hd.
    pose proof (IH c1) as IHc. revert IHc.
    destruct (run events c1) as [snaps c2]. cbn [fst snd map total fold_right].
    unfold drainAndReset in Hd. injection Hd as <- <-.
    cbn [numErrors numRecommendations snap_numErrors snap_numRecommendations].
    intros IHc. destruct IHc as [IHe IHr]; try lia.
    unfold total in *.
    rewrite !to_int_id by (unfold INT_MIN, INT_MAX; lia). lia.
Qed.

(** X13. From start-up on, while fewer than 2^31 errors and fewer than
    2^31 marked outcomes are recorded in all, no count is lost or reported
    twice across the drains: the error counts the drains returned and the
    counter left in the structure add up to the number of recorded errors,
    and likewise for the marked outcomes. *)
Theorem drains_add_up_to_recorded_counts :
  forall (events : list event) (u : string) (t : Z),
    recorded_errors events <= INT_MAX ->
    recorded_recommendations events <= INT_MAX ->
    let result := run events (initial_control u t) in
    total (map snap_numErrors (fst result)) + numErrors (snd result)
    = recorded_errors events
    /\ total (map snap_numRecommendations (fst result))
       + numRecommendations (snd result)
       = recorded_recommendations events.
Proof.
  intros events u t He Hr. cbv zeta.
  destruct (run_totals events (initial_control u t)) as [Hte Htr];
    cbn [initial_control numErrors numRecommendations]; try lia.
  cbn [initial_control numErrors numRecommendations] in Hte, Htr.
  split; lia.
Qed.

(** Two errors in the first window, one in the second, one not yet
    drained. *)
Lemma drains_add_up_on_four_errors :
  let e := Recorded {| obs_error := true; obs_recommendation := false;
                       obs_latency := 9 |} in
  let result := run [e; e; Drained 101; e; Drained 102; e]
                    (initial_control "u" 9) in
  total (map snap_numErrors (fst result)) + numErrors (snd result) = 4.
Proof.
  cbv zeta.
  refine (proj1 (drains_add_up_to_recorded_counts
                   [_; _; Drained 101; _; Drained 102; _] "u" 9 _ _)).
  - vm_compute. discriminate.
  - vm_compute. discriminate.
Defined.
